(** * HD44780 character LCD driver (lcd.c): 4-bit bus protocol

    A shallow embedding of the driver of [lcd.c] and the properties of
    the bus activity it emits.  The driver talks to three pieces of
    hardware that lie outside the file: six GPIO output lines, the
    free-running counter of timer TIM1 and the millisecond delay of the
    HAL.  They are modelled as a simulated backend: a record of pin
    levels, a counter register and a trace of everything that happened
    on the bus and on the clock. *)

From Stdlib Require Import String Ascii ZArith List Lia Bool.
Import ListNotations.
Open Scope Z_scope.

(** ** Integer types of the C source *)

(** [char]: the target is an STM32G0 (ARM EABI), where plain [char] is
    unsigned and 8 bits wide.  A [char] parameter receives its argument
    converted to that type. *)
Definition to_char (z : Z) : Z := z mod 256.

(** [uint16_t], the parameter type of [Delay]. *)
Definition to_uint16 (z : Z) : Z := z mod 65536.

(** ** The simulated hardware *)

(** The lines of the display; [main.h] names them [RS_Pin], [EN_Pin],
    [DB4_Pin] ... [DB7_Pin] and they are taken to be six distinct pins. *)
Inductive line : Type := RS | EN | DB4 | DB5 | DB6 | DB7.

Inductive GPIO_PinState : Type := GPIO_PIN_RESET | GPIO_PIN_SET.

(** An [int] handed to the HAL as a pin state.  The HAL compares the
    state with [GPIO_PIN_RESET], which is zero, drives the line low if
    they are equal and high if not.  The driver hands over 0 and 1
    only. *)
Definition PinState_of_int (z : Z) : GPIO_PinState :=
  if z =? 0 then GPIO_PIN_RESET else GPIO_PIN_SET.

(** What an observer of the bus and of the clock sees. *)
Inductive event : Type :=
| EvWrite (l : line) (v : GPIO_PinState)   (* a line is driven to a level *)
| EvTick                                   (* one period of the TIM1 tick *)
| EvDelay_ms (ms : Z).                     (* HAL_Delay(ms) ran to its end *)

Record GPIO : Type := mkGPIO {
  lvRS : GPIO_PinState; lvEN : GPIO_PinState;
  lvDB4 : GPIO_PinState; lvDB5 : GPIO_PinState;
  lvDB6 : GPIO_PinState; lvDB7 : GPIO_PinState }.

Definition write_pin (l : line) (v : GPIO_PinState) (g : GPIO) : GPIO :=
  match l with
  | RS  => mkGPIO v (lvEN g) (lvDB4 g) (lvDB5 g) (lvDB6 g) (lvDB7 g)
  | EN  => mkGPIO (lvRS g) v (lvDB4 g) (lvDB5 g) (lvDB6 g) (lvDB7 g)
  | DB4 => mkGPIO (lvRS g) (lvEN g) v (lvDB5 g) (lvDB6 g) (lvDB7 g)
  | DB5 => mkGPIO (lvRS g) (lvEN g) (lvDB4 g) v (lvDB6 g) (lvDB7 g)
  | DB6 => mkGPIO (lvRS g) (lvEN g) (lvDB4 g) (lvDB5 g) v (lvDB7 g)
  | DB7 => mkGPIO (lvRS g) (lvEN g) (lvDB4 g) (lvDB5 g) (lvDB6 g) v
  end.

(** The state of the backend.  [CNT] is the counter register of TIM1 and
    [ARR] its auto-reload value: the counter counts 0, 1, ..., [ARR] and
    starts again at 0.  [ARR] is set by the timer configuration, which is
    not part of the driver, and the driver never changes it. *)
Record hw : Type := mkHw {
  pins : GPIO;
  CNT : Z;
  ARR : Z;
  trace : list event }.

(** ** The monad of the driver

    A driver function reads a bound on the number of iterations of a busy
    loop (the fuel), transforms the backend and may fail to return:
    [None] stands for a busy loop that outlives the fuel and for a read
    past the end of a string buffer. *)
Definition M (A : Type) : Type := nat -> hw -> option (A * hw).

Definition ret {A : Type} (a : A) : M A := fun _ s => Some (a, s).

Definition bind {A B : Type} (m : M A) (k : A -> M B) : M B :=
  fun fuel s =>
    match m fuel s with
    | Some (a, s') => k a fuel s'
    | None => None
    end.

Definition stuck {A : Type} : M A := fun _ _ => None.

Declare Scope lcd_scope.
Delimit Scope lcd_scope with lcd.
Notation "x <- m ;; k" := (bind m (fun x => k))
  (at level 100, m at next level, right associativity) : lcd_scope.
Notation "m ;; k" := (bind m (fun _ => k))
  (at level 100, right associativity) : lcd_scope.
Open Scope lcd_scope.

Definition run {A : Type} (m : M A) (fuel : nat) (s : hw) : option (A * hw) :=
  m fuel s.

(** [while (cond) body], at most [n] evaluations of the condition. *)
Fixpoint loop (n : nat) (cond : M bool) (body : M unit) : M unit :=
  match n with
  | O => stuck
  | S n' => b <- cond ;; if b then (body ;; loop n' cond body) else ret tt
  end.

Definition while (cond : M bool) (body : M unit) : M unit :=
  fun fuel => loop fuel cond body fuel.

(** ** Primitives of the HAL and of the timer *)

Definition HAL_GPIO_WritePin (l : line) (PinState : Z) : M unit :=
  fun _ s =>
    let v := PinState_of_int PinState in
    Some (tt, mkHw (write_pin l v (pins s)) (CNT s) (ARR s)
                   (trace s ++ [EvWrite l v])).

Definition HAL_Delay (ms : Z) : M unit :=
  fun _ s =>
    Some (tt, mkHw (pins s) (CNT s) (ARR s) (trace s ++ [EvDelay_ms ms])).

Definition HAL_TIM_SET_COUNTER (v : Z) : M unit :=
  fun _ s => Some (tt, mkHw (pins s) v (ARR s) (trace s)).

Definition HAL_TIM_GET_COUNTER : M Z :=
  fun _ s => Some (CNT s, s).

(** The clock of the simulation: one tick of TIM1 goes by between two
    polls of the counter. *)
Definition tick : M unit :=
  fun _ s =>
    Some (tt, mkHw (pins s) (if CNT s =? ARR s then 0 else CNT s + 1) (ARR s)
                   (trace s ++ [EvTick])).

(** ** The driver, function by function *)

(** lcd.c:24  [void Delay(uint16_t microseconds)].  The body of the
    [while] is empty in the source; time passes there. *)
Definition Delay (microseconds : Z) : M unit :=
  let microseconds := to_uint16 microseconds in
  HAL_TIM_SET_COUNTER 0 ;;
  while (c <- HAL_TIM_GET_COUNTER ;; ret (c <? microseconds)) tick.

(** lcd.c:43  [void LCD_Transmit(char data, int rs)] *)
Definition LCD_Transmit (data : Z) (rs : Z) : M unit :=
  let data := to_char data in
  HAL_GPIO_WritePin RS rs ;;
  HAL_GPIO_WritePin DB7 (Z.land (Z.shiftr data 3) 0x01) ;;
  HAL_GPIO_WritePin DB6 (Z.land (Z.shiftr data 2) 0x01) ;;
  HAL_GPIO_WritePin DB5 (Z.land (Z.shiftr data 1) 0x01) ;;
  HAL_GPIO_WritePin DB4 (Z.land (Z.shiftr data 0) 0x01) ;;
  HAL_GPIO_WritePin EN 1 ;;
  Delay 20 ;;
  HAL_GPIO_WritePin EN 0 ;;
  Delay 20.

(** lcd.c:68  [void LCD_Command(char cmd)] *)
Definition LCD_Command (cmd : Z) : M unit :=
  let cmd := to_char cmd in
  let datasend := to_char (Z.land (Z.shiftr cmd 4) 0x0F) in
  LCD_Transmit datasend 0 ;;
  let datasend := to_char (Z.land cmd 0x0F) in
  LCD_Transmit datasend 0.

(** lcd.c:89  [void LCD_Data(char data)] *)
Definition LCD_Data (data : Z) : M unit :=
  let data := to_char data in
  let datasend := to_char (Z.land (Z.shiftr data 4) 0x0F) in
  LCD_Transmit datasend 1 ;;
  let datasend := to_char (Z.land data 0x0F) in
  LCD_Transmit datasend 1.

(** lcd.c:105  [void LCD_Clear(void)] *)
Definition LCD_Clear : M unit :=
  LCD_Command 0x01 ;;
  HAL_Delay 2.

(** lcd.c:124  [void LCD_Put_Cursor(int row, int col)].  The [switch]
    has no [default]: a row other than 0 and 1 leaves [col] as it is. *)
Definition LCD_Put_Cursor (row col : Z) : M unit :=
  let col :=
    if row =? 0 then Z.lor col 0x80
    else if row =? 1 then Z.lor col 0xC0
    else col in
  LCD_Command col.

(** lcd.c:148  [void LCD_Init(void)] *)
Definition LCD_Init : M unit :=
  HAL_Delay 50 ;;
  LCD_Command 0x30 ;;
  HAL_Delay 5 ;;
  LCD_Command 0x30 ;;
  HAL_Delay 1 ;;
  LCD_Command 0x30 ;;
  HAL_Delay 10 ;;
  LCD_Command 0x20 ;;
  HAL_Delay 10 ;;
  LCD_Command 0x28 ;;
  HAL_Delay 1 ;;
  LCD_Command 0x08 ;;
  HAL_Delay 1 ;;
  LCD_Command 0x01 ;;
  HAL_Delay 1 ;;
  LCD_Command 0x06 ;;
  HAL_Delay 1 ;;
  LCD_Command 0x0C.

(** lcd.c:176  [void LCD_String(char *str)].  [str] is the memory from
    the pointer on, one [char] per cell; each turn of the [while] reads
    the cell under the pointer and moves the pointer by one.  Reading
    past the last cell does not return. *)
Fixpoint LCD_String (str : list Z) : M unit :=
  match str with
  | [] => stuck
  | c :: str' => if c =? 0 then ret tt else (LCD_Data c ;; LCD_String str')
  end.

(** ** Vocabulary of the properties *)

(** Bit [k] of a value, as the level of a data line. *)
Definition bit (v k : Z) : GPIO_PinState :=
  if Z.testbit v k then GPIO_PIN_SET else GPIO_PIN_RESET.

(** The minimum pulse width of the strobe, in ticks of TIM1 (one
    microsecond each when the timer is clocked as the driver expects). *)
Definition pulse_width : nat := 20.

Definition hold : list event := repeat EvTick pulse_width.

(** One nibble transmission, as seen on the bus. *)
Definition transmission (nibble : Z) (mode : GPIO_PinState) : list event :=
  [EvWrite RS mode;
   EvWrite DB7 (bit nibble 3); EvWrite DB6 (bit nibble 2);
   EvWrite DB5 (bit nibble 1); EvWrite DB4 (bit nibble 0);
   EvWrite EN GPIO_PIN_SET]
  ++ hold ++ [EvWrite EN GPIO_PIN_RESET] ++ hold.

(** The two modes of a transfer, as levels of the mode-select line. *)
Definition instruction_mode : GPIO_PinState := GPIO_PIN_RESET.
Definition data_mode : GPIO_PinState := GPIO_PIN_SET.

Definition high_nibble (v : Z) : Z := Z.land (Z.shiftr v 4) 15.
Definition low_nibble (v : Z) : Z := Z.land v 15.

(** An 8-bit value sent in two transmissions, high nibble first. *)
Definition send (mode : GPIO_PinState) (v : Z) : list event :=
  transmission (high_nibble v) mode ++ transmission (low_nibble v) mode.

Definition command_send : Z -> list event := send instruction_mode.
Definition data_send : Z -> list event := send data_mode.

(** The levels of the lines after a run of events. *)
Definition drive1 (e : event) (g : GPIO) : GPIO :=
  match e with
  | EvWrite l v => write_pin l v g
  | _ => g
  end.

Definition drive (evs : list event) (g : GPIO) : GPIO :=
  fold_left (fun g e => drive1 e g) evs g.

(** The events a call appends to the trace. *)
Definition emitted {A : Type} (m : M A) (fuel : nat) (s : hw) : list event :=
  match run m fuel s with
  | Some (_, s') => skipn (length (trace s)) (trace s')
  | None => []
  end.

(** The backend at power-up: every line low, the counter at rest and
    running over its full 16 bits. *)
Definition power_on : hw :=
  mkHw (mkGPIO GPIO_PIN_RESET GPIO_PIN_RESET GPIO_PIN_RESET
               GPIO_PIN_RESET GPIO_PIN_RESET GPIO_PIN_RESET)
       0 65535 [].

(** [m] returns from every state whose timer can count to the pulse
    width, given fuel for one hold, and what it did is [evs]. *)
Definition emits (m : M unit) (evs : list event) : Prop :=
  forall fuel s, (pulse_width < fuel)%nat -> Z.of_nat pulse_width <= ARR s ->
    exists c,
      run m fuel s
      = Some (tt, mkHw (drive evs (pins s)) c (ARR s) (trace s ++ evs)).

(** The address byte [LCD_Put_Cursor] hands to [LCD_Command]. *)
Definition cursor_address (row col : Z) : Z :=
  if row =? 0 then Z.lor 0x80 col
  else if row =? 1 then Z.lor 0xC0 col
  else col.

(** The steps of a timed sequence of sends. *)
Inductive step : Type :=
| Cmd (v : Z)        (* a command send *)
| Dat (v : Z)        (* a data send *)
| Pause (ms : Z).    (* a millisecond delay *)

Definition render (st : step) : list event :=
  match st with
  | Cmd v => command_send v
  | Dat v => data_send v
  | Pause ms => [EvDelay_ms ms]
  end.

Definition play (script : list step) : list event := flat_map render script.

(** What [LCD_Init] does, read off lcd.c:150-168 line by line. *)
Definition init_script : list step :=
  [Pause 50; Cmd 0x30; Pause 5; Cmd 0x30; Pause 1; Cmd 0x30; Pause 10;
   Cmd 0x20; Pause 10; Cmd 0x28; Pause 1; Cmd 0x08; Pause 1;
   Cmd 0x01; Pause 1; Cmd 0x06; Pause 1; Cmd 0x0C].

(** ** The display's side of the bus

    The controller takes the mode-select and data lines in at the
    falling edge of the strobe, and puts two nibbles of one mode
    together to a byte, the first one in the high half. *)

(** A level as a number: 1 for high, 0 for low. *)
Definition level_bit (v : GPIO_PinState) : Z :=
  match v with GPIO_PIN_SET => 1 | GPIO_PIN_RESET => 0 end.

Definition data_lines (g : GPIO) : Z :=
  8 * level_bit (lvDB7 g) + 4 * level_bit (lvDB6 g)
  + 2 * level_bit (lvDB5 g) + level_bit (lvDB4 g).

Inductive transfer : Type :=
| Nibble (mode : GPIO_PinState) (n : Z)
| Wait (ms : Z).

Fixpoint latched (g : GPIO) (evs : list event) : list transfer :=
  match evs with
  | [] => []
  | e :: evs' =>
      let rest := latched (drive1 e g) evs' in
      match e with
      | EvDelay_ms ms => Wait ms :: rest
      | EvWrite EN GPIO_PIN_RESET =>
          match lvEN g with
          | GPIO_PIN_SET => Nibble (lvRS g) (data_lines g) :: rest
          | GPIO_PIN_RESET => rest
          end
      | _ => rest
      end
  end.

Definition byte_step (mode : GPIO_PinState) (v : Z) : step :=
  match mode with GPIO_PIN_RESET => Cmd v | GPIO_PIN_SET => Dat v end.

Definition same_mode (m1 m2 : GPIO_PinState) : bool :=
  match m1, m2 with
  | GPIO_PIN_RESET, GPIO_PIN_RESET | GPIO_PIN_SET, GPIO_PIN_SET => true
  | _, _ => false
  end.

(** [pending] is a high nibble that still waits for its low nibble.  A
    pause or a change of mode inside a byte, or a nibble left over at the
    end, is no sequence of sends. *)
Fixpoint assemble (pending : option (GPIO_PinState * Z)) (ts : list transfer)
  : option (list step) :=
  match ts, pending with
  | [], None => Some []
  | [], Some _ => None
  | Wait ms :: ts', None => option_map (cons (Pause ms)) (assemble None ts')
  | Wait _ :: _, Some _ => None
  | Nibble m n :: ts', None => assemble (Some (m, n)) ts'
  | Nibble m n :: ts', Some (m', h) =>
      if same_mode m m'
      then option_map (cons (byte_step m (16 * h + n))) (assemble None ts')
      else None
  end.

Definition decode (g : GPIO) (evs : list event) : option (list step) :=
  assemble None (latched g evs).

Definition is_byte (v : Z) : Prop := 0 <= v < 256.

Definition bytes_only (st : step) : Prop :=
  match st with
  | Cmd v | Dat v => is_byte v
  | Pause _ => True
  end.

(** The levels a line was driven to, in order. *)
Definition same_line (l1 l2 : line) : bool :=
  match l1, l2 with
  | RS, RS | EN, EN | DB4, DB4 | DB5, DB5 | DB6, DB6 | DB7, DB7 => true
  | _, _ => false
  end.

Fixpoint writes_to (l : line) (evs : list event) : list GPIO_PinState :=
  match evs with
  | [] => []
  | EvWrite l' v :: evs' =>
      if same_line l l' then v :: writes_to l evs' else writes_to l evs'
  | _ :: evs' => writes_to l evs'
  end.

(** The memory a C string literal occupies: its characters and the
    terminating zero. *)
Definition string_literal (text : string) : list Z :=
  map (fun a => Z.of_N (N_of_ascii a)) (list_ascii_of_string text) ++ [0].

(** ** The operations of the interface *)

(** One constructor for each function declared in [lcd.h]. *)
Inductive operation : Type :=
| OpInit
| OpCommand (cmd : Z)
| OpData (d : Z)
| OpString (str : list Z)
| OpPutCursor (row col : Z)
| OpClear.

Definition call (op : operation) : M unit :=
  match op with
  | OpInit => LCD_Init
  | OpCommand cmd => LCD_Command cmd
  | OpData d => LCD_Data d
  | OpString str => LCD_String str
  | OpPutCursor row col => LCD_Put_Cursor row col
  | OpClear => LCD_Clear
  end.

(** The memory handed to [LCD_String] holds a terminating zero. *)
Definition terminated (str : list Z) : bool := existsb (Z.eqb 0) str.

Definition well_formed (op : operation) : bool :=
  match op with
  | OpString str => terminated str
  | _ => true
  end.

(** The operation reaches [LCD_Transmit] at least once: all do but
    [LCD_String] on the empty string. *)
Definition transmits (op : operation) : bool :=
  match op with
  | OpString [] => false
  | OpString (c :: _) => negb (c =? 0)
  | _ => true
  end.

(** A state that breaks the invariant: the strobe is high. *)
Definition strobe_high : hw :=
  mkHw (mkGPIO GPIO_PIN_RESET GPIO_PIN_SET GPIO_PIN_RESET
               GPIO_PIN_RESET GPIO_PIN_RESET GPIO_PIN_RESET)
       0 65535 [].

(** ** Sequences of calls and what is asked of the bus *)

(** A client that calls operations of the interface one after the
    other. *)
Fixpoint calls (ops : list operation) : M unit :=
  match ops with
  | [] => ret tt
  | op :: ops' => call op ;; calls ops'
  end.

(** The characters of a buffer that lie in front of its first zero. *)
Fixpoint text_of (str : list Z) : list Z :=
  match str with
  | [] => []
  | c :: str' => if c =? 0 then [] else c :: text_of str'
  end.

(** What the display is to read from one operation, bytes cut to the
    8 bits of a [char]. *)
Definition script_of (op : operation) : list step :=
  match op with
  | OpInit => init_script
  | OpCommand cmd => [Cmd (to_char cmd)]
  | OpData d => [Dat (to_char d)]
  | OpString str => map (fun c => Dat (to_char c)) (text_of str)
  | OpPutCursor row col => [Cmd (to_char (cursor_address row col))]
  | OpClear => [Cmd 0x01; Pause 2]
  end.

(** The timing of the bus, as the display needs it.  [en] is the level
    of the strobe and [since] the ticks gone by since its last edge.  The
    mode-select and data lines may change while the strobe is low only;
    the strobe stays high for a pulse width at least, and low for a pulse
    width at least before it is raised again. *)
Fixpoint well_timed (en : GPIO_PinState) (since : nat) (evs : list event)
  : bool :=
  match evs with
  | [] => true
  | EvTick :: evs' => well_timed en (S since) evs'
  | EvDelay_ms _ :: evs' => well_timed en since evs'
  | EvWrite EN v :: evs' =>
      match en, v with
      | GPIO_PIN_SET, GPIO_PIN_RESET | GPIO_PIN_RESET, GPIO_PIN_SET =>
          (pulse_width <=? since)%nat && well_timed v 0 evs'
      | _, _ => well_timed en since evs'
      end
  | EvWrite _ _ :: evs' =>
      match en with
      | GPIO_PIN_SET => false
      | GPIO_PIN_RESET => well_timed en since evs'
      end
  end.

(** The timer ticks spent in busy waits, and the pulses of the strobe. *)
Fixpoint ticks (evs : list event) : nat :=
  match evs with
  | [] => O
  | EvTick :: evs' => S (ticks evs')
  | _ :: evs' => ticks evs'
  end.

Fixpoint strobes (evs : list event) : nat :=
  match evs with
  | [] => O
  | EvWrite EN GPIO_PIN_SET :: evs' => S (strobes evs')
  | _ :: evs' => strobes evs'
  end.

(** ** The executable model on concrete inputs *)

Example Transmit_0xA_data :
  emitted (LCD_Transmit 10 1) 21 power_on = transmission 10 data_mode.
Proof. reflexivity. Qed.

Example Transmit_needs_fuel : run (LCD_Transmit 10 1) 20 power_on = None.
Proof. reflexivity. Qed.

Example Transmit_needs_range :
  run (LCD_Transmit 10 1) 100 (mkHw (pins power_on) 0 19 []) = None.
Proof. reflexivity. Qed.

Example Put_Cursor_0_5 :
  emitted (LCD_Put_Cursor 0 5) 21 power_on = command_send 0x85.
Proof. reflexivity. Qed.

Example literal_Hi : string_literal "Hi" = [72; 105; 0].
Proof. reflexivity. Qed.

Example decode_Put_Cursor_1_10 :
  decode (pins power_on) (emitted (LCD_Put_Cursor 1 10) 21 power_on)
  = Some [Cmd 0xCA].
Proof. reflexivity. Qed.

Example decode_Init :
  decode (pins power_on) (emitted LCD_Init 21 power_on) = Some init_script.
Proof. vm_compute. reflexivity. Qed.

(** [LCD_String] on the empty string touches nothing. *)
Example empty_string_leaves_strobe :
  run (LCD_String (string_literal "")) 21 strobe_high = Some (tt, strobe_high).
Proof. reflexivity. Qed.

(** ** Bits and nibbles *)

Lemma PinState_of_bit (v k : Z) :
  0 <= k -> PinState_of_int (Z.land (Z.shiftr v k) 1) = bit v k.
Proof.
  intros Hk. unfold PinState_of_int, bit.
  change 1 with (Z.ones 1). rewrite Z.land_ones by lia.
  change (2 ^ 1) with 2. rewrite <- Z.bit0_mod, Z.shiftr_spec by lia.
  rewrite Z.add_0_l. destruct (Z.testbit v k); reflexivity.
Qed.

Lemma bit_to_char (v k : Z) : 0 <= k < 8 -> bit (to_char v) k = bit v k.
Proof.
  intros Hk. unfold bit, to_char. change 256 with (2 ^ 8).
  rewrite Z.mod_pow2_bits_low by lia. reflexivity.
Qed.

Lemma bit_congr (v w k : Z) :
  0 <= k < 4 -> v mod 16 = w mod 16 -> bit v k = bit w k.
Proof.
  intros Hk E. unfold bit.
  rewrite <- (Z.mod_pow2_bits_low v 4 k), <- (Z.mod_pow2_bits_low w 4 k) by lia.
  change (2 ^ 4) with 16. rewrite E. reflexivity.
Qed.

Lemma nibble_range (v : Z) : 0 <= Z.land v 15 < 16.
Proof.
  change 15 with (Z.ones 4). rewrite Z.land_ones by lia.
  apply Z.mod_pos_bound. reflexivity.
Qed.

Lemma to_char_small (v : Z) : 0 <= v < 256 -> to_char v = v.
Proof. intros H. unfold to_char. apply Z.mod_small. exact H. Qed.

Lemma to_char_nibble (v : Z) : to_char (Z.land v 15) = Z.land v 15.
Proof. apply to_char_small. pose proof (nibble_range v). lia. Qed.

Lemma low_nibble_to_char (v : Z) : low_nibble (to_char v) = low_nibble v.
Proof.
  unfold low_nibble, to_char. apply Z.bits_inj'. intros n Hn.
  rewrite !Z.land_spec. destruct (Z_lt_dec n 8) as [Hlt | Hge].
  - change 256 with (2 ^ 8). rewrite Z.mod_pow2_bits_low by lia. reflexivity.
  - change 15 with (Z.ones 4). rewrite Z.ones_spec_high by lia.
    rewrite !andb_false_r. reflexivity.
Qed.

Lemma high_nibble_to_char (v : Z) : high_nibble (to_char v) = high_nibble v.
Proof.
  unfold high_nibble, to_char. apply Z.bits_inj'. intros n Hn.
  rewrite !Z.land_spec, !Z.shiftr_spec by lia.
  destruct (Z_lt_dec n 4) as [Hlt | Hge].
  - change 256 with (2 ^ 8). rewrite Z.mod_pow2_bits_low by lia. reflexivity.
  - change 15 with (Z.ones 4). rewrite Z.ones_spec_high by lia.
    rewrite !andb_false_r. reflexivity.
Qed.

(** ** Running the monad *)

Lemma run_bind {A B : Type} (m : M A) (k : A -> M B) fuel s a s' :
  run m fuel s = Some (a, s') ->
  run (bind m k) fuel s = run (k a) fuel s'.
Proof. unfold run, bind. intros ->. reflexivity. Qed.

Lemma drive_app (e1 e2 : list event) (g : GPIO) :
  drive (e1 ++ e2) g = drive e2 (drive e1 g).
Proof. unfold drive. apply fold_left_app. Qed.

Lemma drive_ticks (n : nat) (g : GPIO) : drive (repeat EvTick n) g = g.
Proof. induction n as [| n IH]; [reflexivity | exact IH]. Qed.

(** ** The busy wait *)

Section BusyWait.

Variable target : Z.
Variable fuel : nat.

(** From a counter [k] ticks short of the target, the loop leaves after
    exactly [k] ticks, provided it may test its condition [k + 1]
    times and the counter reaches the target before it wraps. *)
Lemma loop_counts_up (k : nat) :
  forall (n : nat) (s : hw),
    (k < n)%nat ->
    0 <= CNT s ->
    CNT s + Z.of_nat k = target ->
    target <= ARR s ->
    loop n (c <- HAL_TIM_GET_COUNTER ;; ret (c <? target)) tick fuel s
    = Some (tt, mkHw (pins s) target (ARR s) (trace s ++ repeat EvTick k)).
Proof.
  induction k as [| k IH]; intros n s Hn Hc Hk Ha;
    destruct n as [| n]; try lia; destruct s as [g c a t];
    simpl in *; unfold bind, HAL_TIM_GET_COUNTER, ret, bind; simpl.
  - replace (c <? target) with false by (symmetry; apply Z.ltb_ge; lia).
    rewrite app_nil_r. replace c with target by lia. reflexivity.
  - replace (c <? target) with true by (symmetry; apply Z.ltb_lt; lia).
    unfold tick at 1. simpl.
    replace (c =? a) with false by (symmetry; apply Z.eqb_neq; lia).
    rewrite (IH n) by (simpl; lia). simpl.
    rewrite <- app_assoc. simpl. reflexivity.
Qed.

End BusyWait.

(** [Delay] returns after exactly as many ticks as it was asked for. *)
Lemma Delay_ticks (us : Z) (fuel : nat) (s : hw) :
  0 <= us < 65536 -> us <= ARR s -> (Z.to_nat us < fuel)%nat ->
  run (Delay us) fuel s
  = Some (tt, mkHw (pins s) us (ARR s)
                   (trace s ++ repeat EvTick (Z.to_nat us))).
Proof.
  intros Hus Ha Hf. unfold Delay, to_uint16. rewrite Z.mod_small by lia.
  unfold run, bind, HAL_TIM_SET_COUNTER, while.
  rewrite (loop_counts_up us fuel (Z.to_nat us)); simpl; try lia. reflexivity.
Qed.

(** ** Composition of emitted traces *)

Lemma emits_ret : emits (ret tt) [].
Proof.
  intros fuel s _ _. exists (CNT s). unfold run, ret. simpl.
  rewrite app_nil_r. destruct s; reflexivity.
Qed.

Lemma emits_bind (m1 m2 : M unit) (e1 e2 : list event) :
  emits m1 e1 -> emits m2 e2 -> emits (m1 ;; m2) (e1 ++ e2).
Proof.
  intros H1 H2 fuel s Hf Ha.
  destruct (H1 fuel s Hf Ha) as [c1 E1].
  rewrite (run_bind _ _ _ _ _ _ E1). cbv beta.
  destruct (H2 fuel (mkHw (drive e1 (pins s)) c1 (ARR s) (trace s ++ e1)) Hf Ha)
    as [c2 E2].
  exists c2. rewrite E2. simpl. rewrite drive_app, app_assoc. reflexivity.
Qed.

Lemma emits_WritePin (l : line) (v : Z) :
  emits (HAL_GPIO_WritePin l v) [EvWrite l (PinState_of_int v)].
Proof. intros fuel s _ _. exists (CNT s). reflexivity. Qed.

Lemma emits_HAL_Delay (ms : Z) : emits (HAL_Delay ms) [EvDelay_ms ms].
Proof. intros fuel s _ _. exists (CNT s). reflexivity. Qed.

Lemma emits_Delay_20 : emits (Delay 20) hold.
Proof.
  intros fuel s Hf Ha. exists 20. unfold pulse_width in Hf, Ha.
  rewrite Delay_ticks by (simpl; lia).
  unfold hold. rewrite drive_ticks. reflexivity.
Qed.

Create HintDb emits.

#[local] Hint Resolve emits_ret emits_WritePin emits_HAL_Delay emits_Delay_20
  : emits.

(** A sequence of calls: every call but the last is split off with
    [emits_bind] and closed from the hints. *)
Ltac emits_seq :=
  repeat (apply emits_bind; [solve [auto with emits] |]);
  solve [auto with emits].

Lemma emits_Transmit (d rs : Z) :
  emits (LCD_Transmit d rs) (transmission d (PinState_of_int rs)).
Proof.
  unfold LCD_Transmit, transmission.
  rewrite <- (bit_to_char d 3), <- (bit_to_char d 2),
          <- (bit_to_char d 1), <- (bit_to_char d 0) by lia.
  rewrite <- !PinState_of_bit by lia.
  change (EvWrite EN GPIO_PIN_SET) with (EvWrite EN (PinState_of_int 1)).
  change (EvWrite EN GPIO_PIN_RESET) with (EvWrite EN (PinState_of_int 0)).
  cbn [app].
  do 6 (apply (emits_bind _ _ [_]); [apply emits_WritePin |]).
  apply emits_bind; [apply emits_Delay_20 |].
  apply (emits_bind _ _ [_]); [apply emits_WritePin |].
  apply emits_Delay_20.
Qed.

Lemma emits_send (rs v : Z) :
  emits (LCD_Transmit (to_char (Z.land (Z.shiftr (to_char v) 4) 15)) rs ;;
         LCD_Transmit (to_char (Z.land (to_char v) 15)) rs)
        (send (PinState_of_int rs) v).
Proof.
  rewrite !to_char_nibble. unfold send.
  rewrite <- (high_nibble_to_char v), <- (low_nibble_to_char v).
  apply emits_bind; apply emits_Transmit.
Qed.

Lemma emits_Command (v : Z) : emits (LCD_Command v) (command_send v).
Proof. exact (emits_send 0 v). Qed.

Lemma emits_Data (v : Z) : emits (LCD_Data v) (data_send v).
Proof. exact (emits_send 1 v). Qed.

#[local] Hint Resolve emits_Transmit emits_Command emits_Data : emits.

Lemma emits_Clear : emits LCD_Clear (command_send 0x01 ++ [EvDelay_ms 2]).
Proof. unfold LCD_Clear. emits_seq. Qed.

Lemma emits_Put_Cursor (row col : Z) :
  emits (LCD_Put_Cursor row col) (command_send (cursor_address row col)).
Proof.
  unfold LCD_Put_Cursor, cursor_address.
  rewrite (Z.lor_comm col 128), (Z.lor_comm col 192).
  apply emits_Command.
Qed.

Lemma emits_Init : emits LCD_Init (play init_script).
Proof.
  unfold LCD_Init, play, init_script. cbn [flat_map render].
  rewrite app_nil_r. emits_seq.
Qed.

Lemma emits_String (cs rest : list Z) :
  Forall (fun c => c <> 0) cs ->
  emits (LCD_String (cs ++ 0 :: rest)) (flat_map data_send cs).
Proof.
  induction 1 as [| c cs Hc _ IH]; cbn [app LCD_String flat_map].
  - rewrite Z.eqb_refl. apply emits_ret.
  - destruct (Z.eqb_spec c 0) as [E | _]; [contradiction |].
    apply (emits_bind _ _ (data_send c)); [apply emits_Data | exact IH].
Qed.

(** From [emits] back to runs and traces. *)
Lemma emits_run (m : M unit) (evs : list event) (fuel : nat) (s : hw) :
  emits m evs -> (pulse_width < fuel)%nat -> Z.of_nat pulse_width <= ARR s ->
  exists s', run m fuel s = Some (tt, s')
             /\ trace s' = trace s ++ evs
             /\ pins s' = drive evs (pins s)
             /\ ARR s' = ARR s.
Proof.
  intros H Hf Ha. destruct (H fuel s Hf Ha) as [c E].
  eexists. split; [exact E |]. simpl. auto.
Qed.

Lemma emits_emitted (m : M unit) (evs : list event) (fuel : nat) (s : hw) :
  emits m evs -> (pulse_width < fuel)%nat -> Z.of_nat pulse_width <= ARR s ->
  emitted m fuel s = evs.
Proof.
  intros H Hf Ha. destruct (H fuel s Hf Ha) as [c E].
  unfold emitted. rewrite E. simpl.
  rewrite skipn_app, skipn_all, Nat.sub_diag. reflexivity.
Qed.

(** ** What the display reads *)

Lemma latched_app (e1 e2 : list event) :
  forall g, latched g (e1 ++ e2) = latched g e1 ++ latched (drive e1 g) e2.
Proof.
  induction e1 as [| e e1 IH]; intros g; [reflexivity |].
  cbn [app latched]. rewrite IH.
  destruct e as [[] [] | | ms]; try reflexivity.
  destruct (lvEN g); reflexivity.
Qed.

Lemma bit_land_15 (n k : Z) : 0 <= k < 4 -> bit (Z.land n 15) k = bit n k.
Proof.
  intros Hk. apply bit_congr; [exact Hk |].
  change 15 with (Z.ones 4). rewrite Z.land_ones by lia.
  change (2 ^ 4) with 16. apply Z.mod_mod. lia.
Qed.

Lemma nibble_of_bits (n : Z) :
  8 * level_bit (bit n 3) + 4 * level_bit (bit n 2)
  + 2 * level_bit (bit n 1) + level_bit (bit n 0)
  = Z.land n 15.
Proof.
  rewrite <- (bit_land_15 n 3), <- (bit_land_15 n 2),
          <- (bit_land_15 n 1), <- (bit_land_15 n 0) by lia.
  pose proof (nibble_range n) as Hr.
  generalize dependent (Z.land n 15). intros r Hr.
  assert (r = 0 \/ r = 1 \/ r = 2 \/ r = 3 \/ r = 4 \/ r = 5 \/ r = 6
          \/ r = 7 \/ r = 8 \/ r = 9 \/ r = 10 \/ r = 11 \/ r = 12
          \/ r = 13 \/ r = 14 \/ r = 15) as Hcases by lia.
  repeat (destruct Hcases as [-> | Hcases]; [reflexivity |]).
  subst r. reflexivity.
Qed.

(** The display takes one nibble in per transmission: the four low
    bits of the value, in the mode of the transmission. *)
Lemma latched_transmission (g : GPIO) (n : Z) (m : GPIO_PinState) :
  latched g (transmission n m) = [Nibble m (Z.land n 15)].
Proof.
  rewrite <- nibble_of_bits. destruct g. reflexivity.
Qed.

Lemma byte_of_nibbles (v : Z) :
  0 <= v < 256 ->
  16 * Z.land (high_nibble v) 15 + Z.land (low_nibble v) 15 = v.
Proof.
  intros Hv. unfold high_nibble, low_nibble.
  change 15 with (Z.ones 4). rewrite !Z.land_ones by lia.
  rewrite Z.shiftr_div_pow2 by lia. change (2 ^ 4) with 16.
  rewrite !Z.mod_mod by lia.
  rewrite (Z.mod_small (v / 16))
    by (split; [apply Z.div_pos | apply Z.div_lt_upper_bound]; lia).
  symmetry. apply Z.div_mod. lia.
Qed.

Lemma latched_send (g : GPIO) (m : GPIO_PinState) (v : Z) :
  latched g (send m v)
  = [Nibble m (Z.land (high_nibble v) 15); Nibble m (Z.land (low_nibble v) 15)].
Proof.
  unfold send. rewrite latched_app, !latched_transmission. reflexivity.
Qed.

(** A sequence of sends and pauses is read back from the bus as it was
    written, whatever the lines were at before. *)
Lemma decode_play (script : list step) :
  Forall bytes_only script ->
  forall g, decode g (play script) = Some script.
Proof.
  unfold decode, play.
  induction 1 as [| st script Hst _ IH]; intros g; [reflexivity |].
  cbn [flat_map]. rewrite latched_app.
  destruct st as [v | v | ms]; cbn [render bytes_only] in *.
  - unfold command_send. rewrite latched_send.
    cbn [app assemble same_mode instruction_mode].
    rewrite IH, byte_of_nibbles by exact Hst. reflexivity.
  - unfold data_send. rewrite latched_send.
    cbn [app assemble same_mode data_mode].
    rewrite IH, byte_of_nibbles by exact Hst. reflexivity.
  - cbn [latched app assemble]. rewrite IH. reflexivity.
Qed.

Lemma to_char_is_byte (v : Z) : is_byte (to_char v).
Proof. unfold is_byte, to_char. apply Z.mod_pos_bound. reflexivity. Qed.

Lemma send_to_char (m : GPIO_PinState) (v : Z) : send m (to_char v) = send m v.
Proof.
  unfold send. rewrite high_nibble_to_char, low_nibble_to_char. reflexivity.
Qed.

(** A command send is read by the display as one instruction byte: the
    value, cut to 8 bits as the [char] parameter cuts it. *)
Lemma decode_command_send (g : GPIO) (v : Z) :
  decode g (command_send v) = Some [Cmd (to_char v)].
Proof.
  unfold command_send. rewrite <- send_to_char.
  rewrite <- (app_nil_r (send instruction_mode (to_char v))).
  apply (decode_play [Cmd (to_char v)]).
  constructor; [apply to_char_is_byte | constructor].
Qed.

Lemma writes_to_app (l : line) (e1 e2 : list event) :
  writes_to l (e1 ++ e2) = writes_to l e1 ++ writes_to l e2.
Proof.
  induction e1 as [| e e1 IH]; [reflexivity |].
  destruct e as [l' v | | ms]; cbn [app writes_to]; rewrite IH;
    [destruct (same_line l l') |..]; reflexivity.
Qed.

Lemma strobe_after_transmission (g : GPIO) (n : Z) (m : GPIO_PinState) :
  lvEN (drive (transmission n m) g) = GPIO_PIN_RESET.
Proof. reflexivity. Qed.

Lemma mode_after_transmission (g : GPIO) (n : Z) (m : GPIO_PinState) :
  lvRS (drive (transmission n m) g) = m.
Proof. reflexivity. Qed.

Lemma strobe_after_send (g : GPIO) (m : GPIO_PinState) (v : Z) :
  lvEN (drive (send m v) g) = GPIO_PIN_RESET.
Proof. unfold send. rewrite drive_app. apply strobe_after_transmission. Qed.

Lemma mode_after_send (g : GPIO) (m : GPIO_PinState) (v : Z) :
  lvRS (drive (send m v) g) = m.
Proof. unfold send. rewrite drive_app. apply mode_after_transmission. Qed.

(** * The nibble transmitter *)

(** C3.  For every value and for both modes, one call of [LCD_Transmit]
    (with 0 for instruction, 1 for data) returns and does, in this order
    and nothing else: drive the mode-select line to the mode, low for
    instruction and high for data; drive DB7, DB6, DB5 and DB4, one write
    each, to bits 3, 2, 1 and 0 of the value; raise the strobe; let 20
    ticks of the timer go by; lower the strobe; let 20 ticks go by
    again. *)
Theorem LCD_Transmit_sequence
  (nibble : Z) (mode : GPIO_PinState) (fuel : nat) (s : hw) :
  (20 < fuel)%nat -> 20 <= ARR s ->
  exists s',
    run (LCD_Transmit nibble (level_bit mode)) fuel s = Some (tt, s')
    /\ trace s'
       = trace s
         ++ [EvWrite RS mode;
             EvWrite DB7 (bit nibble 3); EvWrite DB6 (bit nibble 2);
             EvWrite DB5 (bit nibble 1); EvWrite DB4 (bit nibble 0);
             EvWrite EN GPIO_PIN_SET]
         ++ repeat EvTick 20
         ++ [EvWrite EN GPIO_PIN_RESET]
         ++ repeat EvTick 20.
Proof.
  intros Hf Ha.
  destruct (emits_run _ _ fuel s (emits_Transmit nibble (level_bit mode)) Hf Ha)
    as (s' & E & T & _).
  exists s'. split; [exact E |]. rewrite T. destruct mode; reflexivity.
Qed.

Lemma LCD_Transmit_sequence_witness :
  exists s',
    run (LCD_Transmit 10 (level_bit GPIO_PIN_SET)) 21 power_on = Some (tt, s')
    /\ trace s'
       = trace power_on
         ++ [EvWrite RS GPIO_PIN_SET;
             EvWrite DB7 (bit 10 3); EvWrite DB6 (bit 10 2);
             EvWrite DB5 (bit 10 1); EvWrite DB4 (bit 10 0);
             EvWrite EN GPIO_PIN_SET]
         ++ repeat EvTick 20
         ++ [EvWrite EN GPIO_PIN_RESET]
         ++ repeat EvTick 20.
Proof.
  apply (LCD_Transmit_sequence 10 GPIO_PIN_SET 21 power_on); simpl; lia.
Defined.

(** C9.  What [LCD_Transmit] does depends on the four low bits of its
    value and on the mode only: two values that agree modulo 16 give the
    same run, from every state and with every fuel, and so the same
    events. *)
Theorem LCD_Transmit_low_bits_only (d d' rs : Z) (fuel : nat) (s : hw) :
  d mod 16 = d' mod 16 ->
  run (LCD_Transmit d rs) fuel s = run (LCD_Transmit d' rs) fuel s
  /\ emitted (LCD_Transmit d rs) fuel s = emitted (LCD_Transmit d' rs) fuel s.
Proof.
  intros E.
  assert (H : forall k, 0 <= k < 4 ->
            Z.land (Z.shiftr (to_char d) k) 1
            = Z.land (Z.shiftr (to_char d') k) 1).
  { intros k Hk. change 1 with (Z.ones 1). rewrite !Z.land_ones by lia.
    change (2 ^ 1) with 2. rewrite <- !Z.bit0_mod, !Z.shiftr_spec by lia.
    rewrite !Z.add_0_l. f_equal.
    pose proof (bit_to_char d k) as B. pose proof (bit_to_char d' k) as B'.
    pose proof (bit_congr d d' k Hk E) as C. unfold bit in B, B', C.
    destruct (Z.testbit (to_char d) k), (Z.testbit (to_char d') k),
             (Z.testbit d k), (Z.testbit d' k);
      try reflexivity;
      try (specialize (B ltac:(lia))); try (specialize (B' ltac:(lia)));
      congruence. }
  assert (R : LCD_Transmit d rs = LCD_Transmit d' rs).
  { unfold LCD_Transmit. cbv zeta.
    rewrite (H 3), (H 2), (H 1), (H 0) by lia. reflexivity. }
  rewrite R. split; reflexivity.
Qed.

Lemma LCD_Transmit_low_bits_only_witness :
  run (LCD_Transmit 250 1) 21 power_on = run (LCD_Transmit 10 1) 21 power_on
  /\ emitted (LCD_Transmit 250 1) 21 power_on
     = emitted (LCD_Transmit 10 1) 21 power_on.
Proof.
  apply (LCD_Transmit_low_bits_only 250 10 1 21 power_on). reflexivity.
Defined.

(** * The command and data encoders *)

Lemma send_two_transmissions (rs v : Z) (m : M unit) (fuel : nat) (s : hw) :
  emits m (send (PinState_of_int rs) v) ->
  (20 < fuel)%nat -> 20 <= ARR s ->
  exists s',
    run m fuel s = Some (tt, s')
    /\ trace s'
       = trace s
         ++ transmission (Z.land (Z.shiftr v 4) 15) (PinState_of_int rs)
         ++ transmission (Z.land v 15) (PinState_of_int rs)
    /\ latched (pins s) (emitted m fuel s)
       = [Nibble (PinState_of_int rs) (Z.land (Z.shiftr v 4) 15);
          Nibble (PinState_of_int rs) (Z.land v 15)]
    /\ writes_to RS (emitted m fuel s)
       = [PinState_of_int rs; PinState_of_int rs]
    /\ lvRS (pins s') = PinState_of_int rs.
Proof.
  intros H Hf Ha.
  destruct (emits_run _ _ fuel s H Hf Ha) as (s' & E & T & P & _).
  rewrite (emits_emitted _ _ fuel s H Hf Ha).
  exists s'. split; [| split; [| split; [| split]]].
  - exact E.
  - exact T.
  - rewrite latched_send. unfold high_nibble, low_nibble.
    rewrite <- !Z.land_assoc. reflexivity.
  - unfold send. rewrite writes_to_app. reflexivity.
  - rewrite P. apply mode_after_send.
Qed.

(** C2.  For every value [v], and so for every 8-bit one,
    [LCD_Command v] returns and emits exactly two nibble transmissions:
    first that of [(v >> 4) & 0xF], then that of [v & 0xF].  The display
    takes in these two nibbles and no other, both as instruction; the
    mode-select line is written twice, low each time, and is low at the
    end. *)
Theorem LCD_Command_two_nibbles (v : Z) (fuel : nat) (s : hw) :
  (20 < fuel)%nat -> 20 <= ARR s ->
  exists s',
    run (LCD_Command v) fuel s = Some (tt, s')
    /\ trace s'
       = trace s
         ++ transmission (Z.land (Z.shiftr v 4) 15) GPIO_PIN_RESET
         ++ transmission (Z.land v 15) GPIO_PIN_RESET
    /\ latched (pins s) (emitted (LCD_Command v) fuel s)
       = [Nibble GPIO_PIN_RESET (Z.land (Z.shiftr v 4) 15);
          Nibble GPIO_PIN_RESET (Z.land v 15)]
    /\ writes_to RS (emitted (LCD_Command v) fuel s)
       = [GPIO_PIN_RESET; GPIO_PIN_RESET]
    /\ lvRS (pins s') = GPIO_PIN_RESET.
Proof. exact (send_two_transmissions 0 v _ fuel s (emits_Command v)). Qed.

Lemma LCD_Command_two_nibbles_witness :
  exists s',
    run (LCD_Command 40) 21 power_on = Some (tt, s')
    /\ trace s'
       = trace power_on
         ++ transmission (Z.land (Z.shiftr 40 4) 15) GPIO_PIN_RESET
         ++ transmission (Z.land 40 15) GPIO_PIN_RESET
    /\ latched (pins power_on) (emitted (LCD_Command 40) 21 power_on)
       = [Nibble GPIO_PIN_RESET (Z.land (Z.shiftr 40 4) 15);
          Nibble GPIO_PIN_RESET (Z.land 40 15)]
    /\ writes_to RS (emitted (LCD_Command 40) 21 power_on)
       = [GPIO_PIN_RESET; GPIO_PIN_RESET]
    /\ lvRS (pins s') = GPIO_PIN_RESET.
Proof. apply (LCD_Command_two_nibbles 40 21 power_on); simpl; lia. Defined.

(** C6.  For every value [v], and so for every 8-bit one, [LCD_Data v]
    returns and emits exactly two nibble transmissions: first that of
    [(v >> 4) & 0xF], then that of [v & 0xF].  The display takes in these
    two nibbles and no other, both as data; the mode-select line is
    written twice, high each time, and is high at the end. *)
Theorem LCD_Data_two_nibbles (v : Z) (fuel : nat) (s : hw) :
  (20 < fuel)%nat -> 20 <= ARR s ->
  exists s',
    run (LCD_Data v) fuel s = Some (tt, s')
    /\ trace s'
       = trace s
         ++ transmission (Z.land (Z.shiftr v 4) 15) GPIO_PIN_SET
         ++ transmission (Z.land v 15) GPIO_PIN_SET
    /\ latched (pins s) (emitted (LCD_Data v) fuel s)
       = [Nibble GPIO_PIN_SET (Z.land (Z.shiftr v 4) 15);
          Nibble GPIO_PIN_SET (Z.land v 15)]
    /\ writes_to RS (emitted (LCD_Data v) fuel s)
       = [GPIO_PIN_SET; GPIO_PIN_SET]
    /\ lvRS (pins s') = GPIO_PIN_SET.
Proof. exact (send_two_transmissions 1 v _ fuel s (emits_Data v)). Qed.

Lemma LCD_Data_two_nibbles_witness :
  exists s',
    run (LCD_Data 72) 21 power_on = Some (tt, s')
    /\ trace s'
       = trace power_on
         ++ transmission (Z.land (Z.shiftr 72 4) 15) GPIO_PIN_SET
         ++ transmission (Z.land 72 15) GPIO_PIN_SET
    /\ latched (pins power_on) (emitted (LCD_Data 72) 21 power_on)
       = [Nibble GPIO_PIN_SET (Z.land (Z.shiftr 72 4) 15);
          Nibble GPIO_PIN_SET (Z.land 72 15)]
    /\ writes_to RS (emitted (LCD_Data 72) 21 power_on)
       = [GPIO_PIN_SET; GPIO_PIN_SET]
    /\ lvRS (pins s') = GPIO_PIN_SET.
Proof. apply (LCD_Data_two_nibbles 72 21 power_on); simpl; lia. Defined.

(** * The high-level operations *)

Lemma Put_Cursor_sends (row col addr : Z) (fuel : nat) (s : hw) :
  cursor_address row col = addr ->
  (20 < fuel)%nat -> 20 <= ARR s ->
  (exists s', run (LCD_Put_Cursor row col) fuel s = Some (tt, s')
              /\ trace s' = trace s ++ command_send addr)
  /\ decode (pins s) (emitted (LCD_Put_Cursor row col) fuel s)
     = Some [Cmd (to_char addr)].
Proof.
  intros <- Hf Ha.
  pose proof (emits_Put_Cursor row col) as H.
  destruct (emits_run _ _ fuel s H Hf Ha) as (s' & E & T & _).
  rewrite (emits_emitted _ _ fuel s H Hf Ha).
  split; [exists s'; split; assumption | apply decode_command_send].
Qed.

(** C4.  For every column value [col], [LCD_Put_Cursor 0 col] returns
    and emits one command send, that of [0x80 | col], and
    [LCD_Put_Cursor 1 col] one command send, that of [0xC0 | col]; for
    every row other than 0 and 1, [LCD_Put_Cursor row col] returns and
    emits one command send, that of [col] itself.  The display reads the
    instruction byte [0x85] for row 0, column 5 and [0xCA] for row 1,
    column 10; in general it reads the address cut to 8 bits. *)
Theorem LCD_Put_Cursor_address (row col : Z) (fuel : nat) (s : hw) :
  (20 < fuel)%nat -> 20 <= ARR s -> row <> 0 -> row <> 1 ->
  ((exists s', run (LCD_Put_Cursor 0 col) fuel s = Some (tt, s')
               /\ trace s' = trace s ++ command_send (Z.lor 0x80 col))
   /\ decode (pins s) (emitted (LCD_Put_Cursor 0 col) fuel s)
      = Some [Cmd (to_char (Z.lor 0x80 col))])
  /\ ((exists s', run (LCD_Put_Cursor 1 col) fuel s = Some (tt, s')
                  /\ trace s' = trace s ++ command_send (Z.lor 0xC0 col))
      /\ decode (pins s) (emitted (LCD_Put_Cursor 1 col) fuel s)
         = Some [Cmd (to_char (Z.lor 0xC0 col))])
  /\ ((exists s', run (LCD_Put_Cursor row col) fuel s = Some (tt, s')
                  /\ trace s' = trace s ++ command_send col)
      /\ decode (pins s) (emitted (LCD_Put_Cursor row col) fuel s)
         = Some [Cmd (to_char col)])
  /\ decode (pins s) (emitted (LCD_Put_Cursor 0 5) fuel s) = Some [Cmd 0x85]
  /\ decode (pins s) (emitted (LCD_Put_Cursor 1 10) fuel s) = Some [Cmd 0xCA].
Proof.
  intros Hf Ha H0 H1.
  split; [| split; [| split; [| split]]].
  - apply Put_Cursor_sends; [reflexivity | assumption..].
  - apply Put_Cursor_sends; [reflexivity | assumption..].
  - apply Put_Cursor_sends; [| assumption..].
    unfold cursor_address.
    destruct (Z.eqb_spec row 0); [contradiction |].
    destruct (Z.eqb_spec row 1); [contradiction | reflexivity].
  - apply (Put_Cursor_sends 0 5 133); [reflexivity | assumption..].
  - apply (Put_Cursor_sends 1 10 202); [reflexivity | assumption..].
Qed.

Lemma LCD_Put_Cursor_address_witness :
  ((exists s', run (LCD_Put_Cursor 0 15) 21 power_on = Some (tt, s')
               /\ trace s' = trace power_on ++ command_send (Z.lor 0x80 15))
   /\ decode (pins power_on) (emitted (LCD_Put_Cursor 0 15) 21 power_on)
      = Some [Cmd (to_char (Z.lor 0x80 15))])
  /\ ((exists s', run (LCD_Put_Cursor 1 15) 21 power_on = Some (tt, s')
                  /\ trace s' = trace power_on ++ command_send (Z.lor 0xC0 15))
      /\ decode (pins power_on) (emitted (LCD_Put_Cursor 1 15) 21 power_on)
         = Some [Cmd (to_char (Z.lor 0xC0 15))])
  /\ ((exists s', run (LCD_Put_Cursor 2 15) 21 power_on = Some (tt, s')
                  /\ trace s' = trace power_on ++ command_send 0x0F)
      /\ decode (pins power_on) (emitted (LCD_Put_Cursor 2 15) 21 power_on)
         = Some [Cmd (to_char 15)])
  /\ decode (pins power_on) (emitted (LCD_Put_Cursor 0 5) 21 power_on)
     = Some [Cmd 0x85]
  /\ decode (pins power_on) (emitted (LCD_Put_Cursor 1 10) 21 power_on)
     = Some [Cmd 0xCA].
Proof. apply (LCD_Put_Cursor_address 2 15 21 power_on); simpl; lia. Defined.

(** C5.  [LCD_Clear] returns and emits one command send, that of
    [0x01], then one millisecond delay of 2, and nothing else; the
    display reads the single instruction byte [0x01]. *)
Theorem LCD_Clear_sequence (fuel : nat) (s : hw) :
  (20 < fuel)%nat -> 20 <= ARR s ->
  exists s',
    run LCD_Clear fuel s = Some (tt, s')
    /\ trace s' = trace s ++ command_send 0x01 ++ [EvDelay_ms 2]
    /\ decode (pins s) (emitted LCD_Clear fuel s) = Some [Cmd 0x01; Pause 2].
Proof.
  intros Hf Ha.
  destruct (emits_run _ _ fuel s emits_Clear Hf Ha) as (s' & E & T & _).
  rewrite (emits_emitted _ _ fuel s emits_Clear Hf Ha).
  exists s'. split; [exact E | split; [exact T |]].
  apply (decode_play [Cmd 0x01; Pause 2]).
  repeat constructor; unfold is_byte; lia.
Qed.

Lemma LCD_Clear_sequence_witness :
  exists s',
    run LCD_Clear 21 power_on = Some (tt, s')
    /\ trace s' = trace power_on ++ command_send 0x01 ++ [EvDelay_ms 2]
    /\ decode (pins power_on) (emitted LCD_Clear 21 power_on)
       = Some [Cmd 0x01; Pause 2].
Proof. apply (LCD_Clear_sequence 21 power_on); simpl; lia. Defined.

Lemma nonzero_chars (cs : list Z) :
  Forall (fun c => 0 < c < 256) cs -> Forall (fun c => c <> 0) cs.
Proof. apply Forall_impl. intros c Hc. lia. Qed.

Lemma bytes_only_Dat (cs : list Z) :
  Forall (fun c => 0 < c < 256) cs -> Forall bytes_only (map Dat cs).
Proof.
  intros H. apply Forall_map. revert H. apply Forall_impl.
  intros c Hc. unfold bytes_only, is_byte. lia.
Qed.

Lemma play_Dat (cs : list Z) : play (map Dat cs) = flat_map data_send cs.
Proof.
  unfold play. induction cs as [| c cs IH]; [reflexivity |].
  cbn [map flat_map render]. rewrite IH. reflexivity.
Qed.

(** C7.  Let the memory at [str] hold the characters [cs], none of them
    zero, then the terminating zero, then anything.  [LCD_String]
    returns and emits the data sends of the characters of [cs], one
    each, from left to right, and nothing for the zero or for what lies
    behind it; the display reads the characters of [cs] as data bytes.
    For the literal ["Hi"] these are the data sends of [0x48] and of
    [0x69], of two nibble transmissions each. *)
Theorem LCD_String_sends_each_char (cs rest : list Z) (fuel : nat) (s : hw) :
  Forall (fun c => 0 < c < 256) cs ->
  (20 < fuel)%nat -> 20 <= ARR s ->
  (exists s',
     run (LCD_String (cs ++ 0 :: rest)) fuel s = Some (tt, s')
     /\ trace s' = trace s ++ flat_map data_send cs
     /\ decode (pins s) (emitted (LCD_String (cs ++ 0 :: rest)) fuel s)
        = Some (map Dat cs))
  /\ (exists s',
        run (LCD_String (string_literal "Hi")) fuel s = Some (tt, s')
        /\ trace s'
           = trace s
             ++ (transmission 4 GPIO_PIN_SET ++ transmission 8 GPIO_PIN_SET)
             ++ (transmission 6 GPIO_PIN_SET ++ transmission 9 GPIO_PIN_SET)
        /\ decode (pins s) (emitted (LCD_String (string_literal "Hi")) fuel s)
           = Some [Dat 0x48; Dat 0x69]).
Proof.
  intros Hcs Hf Ha.
  assert (G : forall cs rest, Forall (fun c => 0 < c < 256) cs ->
            exists s',
              run (LCD_String (cs ++ 0 :: rest)) fuel s = Some (tt, s')
              /\ trace s' = trace s ++ flat_map data_send cs
              /\ decode (pins s) (emitted (LCD_String (cs ++ 0 :: rest)) fuel s)
                 = Some (map Dat cs)).
  { clear cs rest Hcs. intros cs rest Hcs.
    pose proof (emits_String cs rest (nonzero_chars cs Hcs)) as H.
    destruct (emits_run _ _ fuel s H Hf Ha) as (s' & E & T & _).
    rewrite (emits_emitted _ _ fuel s H Hf Ha).
    exists s'. split; [exact E | split; [exact T |]].
    rewrite <- play_Dat. apply decode_play, bytes_only_Dat, Hcs. }
  split; [apply G, Hcs |].
  destruct (G [72; 105] []) as (s' & E & T & D).
  { repeat constructor; lia. }
  exists s'. split; [exact E | split; [| exact D]].
  rewrite T. reflexivity.
Qed.

Lemma LCD_String_sends_each_char_witness :
  (exists s',
     run (LCD_String ([76; 67; 68] ++ 0 :: [33])) 21 power_on = Some (tt, s')
     /\ trace s' = trace power_on ++ flat_map data_send [76; 67; 68]
     /\ decode (pins power_on)
               (emitted (LCD_String ([76; 67; 68] ++ 0 :: [33])) 21 power_on)
        = Some (map Dat [76; 67; 68]))
  /\ (exists s',
        run (LCD_String (string_literal "Hi")) 21 power_on = Some (tt, s')
        /\ trace s'
           = trace power_on
             ++ (transmission 4 GPIO_PIN_SET ++ transmission 8 GPIO_PIN_SET)
             ++ (transmission 6 GPIO_PIN_SET ++ transmission 9 GPIO_PIN_SET)
        /\ decode (pins power_on)
                  (emitted (LCD_String (string_literal "Hi")) 21 power_on)
           = Some [Dat 0x48; Dat 0x69]).
Proof.
  apply (LCD_String_sends_each_char [76; 67; 68] [33] 21 power_on);
    [repeat constructor; lia | simpl; lia | simpl; lia].
Defined.

(** * The initialization sequence *)

Lemma Init_decoded (fuel : nat) (s : hw) :
  (20 < fuel)%nat -> 20 <= ARR s ->
  emitted LCD_Init fuel s = play init_script
  /\ decode (pins s) (emitted LCD_Init fuel s) = Some init_script.
Proof.
  intros Hf Ha. rewrite (emits_emitted _ _ fuel s emits_Init Hf Ha).
  split; [reflexivity |]. apply decode_play.
  unfold init_script. repeat constructor; unfold is_byte; lia.
Qed.

(** C1, as the code has it.  [LCD_Init] returns and emits, from every
    state alike: a delay of 50 ms, then exactly nine command sends, of
    [0x30], [0x30], [0x30], [0x20], [0x28], [0x08], [0x01], [0x06] and
    [0x0C] in this order.  Each of the first eight is followed by one
    delay, none of them zero: 5, 1 and 10 ms after the three [0x30]
    sends, then 10, 1, 1, 1 and 1 ms.  Nothing follows the send of
    [0x0C]. *)
Theorem LCD_Init_sequence (fuel : nat) (s : hw) :
  (20 < fuel)%nat -> 20 <= ARR s ->
  exists s',
    run LCD_Init fuel s = Some (tt, s')
    /\ trace s'
       = trace s
         ++ play [Pause 50; Cmd 0x30; Pause 5; Cmd 0x30; Pause 1;
                  Cmd 0x30; Pause 10; Cmd 0x20; Pause 10; Cmd 0x28; Pause 1;
                  Cmd 0x08; Pause 1; Cmd 0x01; Pause 1; Cmd 0x06; Pause 1;
                  Cmd 0x0C]
    /\ decode (pins s) (emitted LCD_Init fuel s)
       = Some [Pause 50; Cmd 0x30; Pause 5; Cmd 0x30; Pause 1;
               Cmd 0x30; Pause 10; Cmd 0x20; Pause 10; Cmd 0x28; Pause 1;
               Cmd 0x08; Pause 1; Cmd 0x01; Pause 1; Cmd 0x06; Pause 1;
               Cmd 0x0C].
Proof.
  intros Hf Ha.
  destruct (emits_run _ _ fuel s emits_Init Hf Ha) as (s' & E & T & _).
  exists s'. split; [exact E | split; [exact T |]].
  apply Init_decoded; assumption.
Qed.

Lemma LCD_Init_sequence_witness :
  exists s',
    run LCD_Init 21 power_on = Some (tt, s')
    /\ trace s'
       = trace power_on
         ++ play [Pause 50; Cmd 0x30; Pause 5; Cmd 0x30; Pause 1;
                  Cmd 0x30; Pause 10; Cmd 0x20; Pause 10; Cmd 0x28; Pause 1;
                  Cmd 0x08; Pause 1; Cmd 0x01; Pause 1; Cmd 0x06; Pause 1;
                  Cmd 0x0C]
    /\ decode (pins power_on) (emitted LCD_Init 21 power_on)
       = Some [Pause 50; Cmd 0x30; Pause 5; Cmd 0x30; Pause 1;
               Cmd 0x30; Pause 10; Cmd 0x20; Pause 10; Cmd 0x28; Pause 1;
               Cmd 0x08; Pause 1; Cmd 0x01; Pause 1; Cmd 0x06; Pause 1;
               Cmd 0x0C].
Proof. apply (LCD_Init_sequence 21 power_on); simpl; lia. Defined.

(** C1, as it is worded, fails twice on the sequence [LCD_Init] emits
    from power-up.  The delays after the three [0x30] sends are not
    decreasing, whatever delay one allows in front of the first send;
    and the last send, of [0x0C], is not followed by a delay. *)
Lemma LCD_Init_delays_not_as_described :
  (~ exists (d0 d1 d2 d3 : Z) (rest : list step),
       decode (pins power_on) (emitted LCD_Init 21 power_on)
       = Some (Pause d0 :: Cmd 0x30 :: Pause d1 :: Cmd 0x30 :: Pause d2
                        :: Cmd 0x30 :: Pause d3 :: rest)
       /\ d1 > d2 /\ d2 > d3 /\ d3 > 0)
  /\ (~ exists (front : list step) (d9 : Z),
          decode (pins power_on) (emitted LCD_Init 21 power_on)
          = Some (front ++ [Cmd 0x0C; Pause d9])).
Proof.
  rewrite decode_Init. unfold init_script. split.
  - intros (d0 & d1 & d2 & d3 & rest & E & H12 & H23 & H3).
    injection E as E0 E1 E2 E3 _. lia.
  - intros (front & d9 & E). injection E as E.
    apply (f_equal (fun l => last l (Cmd 0x00))) in E.
    change (front ++ [Cmd 0x0C; Pause d9])
      with (front ++ [Cmd 0x0C] ++ [Pause d9]) in E.
    rewrite app_assoc, last_last in E. discriminate E.
Qed.

(** C8.  Two calls of [LCD_Init] in a row both return, and the second
    emits what the first did, so that the trace grows by two full copies
    of one sequence, the one of [init_script]; from any other state [t],
    whatever its lines, counter and trace, [LCD_Init] emits this sequence
    too. *)
Theorem LCD_Init_twice (fuel : nat) (s t : hw) :
  (20 < fuel)%nat -> 20 <= ARR s -> 20 <= ARR t ->
  (exists s1 s2,
     run LCD_Init fuel s = Some (tt, s1)
     /\ run LCD_Init fuel s1 = Some (tt, s2)
     /\ run (LCD_Init ;; LCD_Init) fuel s = Some (tt, s2)
     /\ emitted LCD_Init fuel s1 = emitted LCD_Init fuel s
     /\ trace s2
        = trace s ++ emitted LCD_Init fuel s ++ emitted LCD_Init fuel s)
  /\ emitted LCD_Init fuel t = emitted LCD_Init fuel s
  /\ emitted LCD_Init fuel s = play init_script.
Proof.
  intros Hf Hs Ht.
  destruct (emits_run _ _ fuel s emits_Init Hf Hs) as (s1 & E1 & T1 & _ & A1).
  assert (Hs1 : 20 <= ARR s1) by (rewrite A1; exact Hs).
  destruct (emits_run _ _ fuel s1 emits_Init Hf Hs1) as (s2 & E2 & T2 & _).
  rewrite (emits_emitted _ _ fuel s emits_Init Hf Hs).
  rewrite (emits_emitted _ _ fuel t emits_Init Hf Ht).
  split; [| split; reflexivity].
  exists s1, s2.
  rewrite (emits_emitted _ _ fuel s1 emits_Init Hf Hs1).
  split; [exact E1 | split; [exact E2 | split; [| split]]].
  - rewrite (run_bind _ _ _ _ _ _ E1). exact E2.
  - reflexivity.
  - rewrite T2, T1, app_assoc. reflexivity.
Qed.

Lemma LCD_Init_twice_witness :
  (exists s1 s2,
     run LCD_Init 21 power_on = Some (tt, s1)
     /\ run LCD_Init 21 s1 = Some (tt, s2)
     /\ run (LCD_Init ;; LCD_Init) 21 power_on = Some (tt, s2)
     /\ emitted LCD_Init 21 s1 = emitted LCD_Init 21 power_on
     /\ trace s2
        = trace power_on ++ emitted LCD_Init 21 power_on
                         ++ emitted LCD_Init 21 power_on)
  /\ emitted LCD_Init 21 (mkHw (pins power_on) 7 99 [EvTick])
     = emitted LCD_Init 21 power_on
  /\ emitted LCD_Init 21 power_on = play init_script.
Proof.
  apply (LCD_Init_twice 21 power_on (mkHw (pins power_on) 7 99 [EvTick]));
    simpl; lia.
Defined.

(** * The strobe line *)

Lemma terminated_split (str : list Z) :
  terminated str = true ->
  exists cs rest, str = cs ++ 0 :: rest /\ Forall (fun c => c <> 0) cs.
Proof.
  induction str as [| c str IH]; [discriminate |].
  cbn [terminated existsb]. destruct (Z.eqb_spec 0 c) as [<- | Hc].
  - intros _. exists [], str. split; [reflexivity | constructor].
  - intros H. destruct (IH H) as (cs & rest & -> & Hcs).
    exists (c :: cs), rest. split; [reflexivity |].
    constructor; [congruence | exact Hcs].
Qed.

Lemma strobe_kept_by_data_sends (cs : list Z) :
  forall g, lvEN g = GPIO_PIN_RESET ->
            lvEN (drive (flat_map data_send cs) g) = GPIO_PIN_RESET.
Proof.
  induction cs as [| c cs IH]; intros g Hg; [exact Hg |].
  cbn [flat_map]. rewrite drive_app. apply IH, strobe_after_send.
Qed.

(** The events of an operation, and where they leave the strobe. *)
Lemma operation_events (op : operation) :
  well_formed op = true ->
  exists evs,
    emits (call op) evs
    /\ forall g, lvEN g = GPIO_PIN_RESET \/ transmits op = true ->
                 lvEN (drive evs g) = GPIO_PIN_RESET.
Proof.
  destruct op as [| cmd | d | str | row col |];
    cbn [call well_formed]; intros W.
  - exists (play init_script). split; [apply emits_Init |].
    intros g _. destruct g. vm_compute. reflexivity.
  - exists (command_send cmd). split; [apply emits_Command |].
    intros g _. apply strobe_after_send.
  - exists (data_send d). split; [apply emits_Data |].
    intros g _. apply strobe_after_send.
  - destruct (terminated_split str W) as (cs & rest & -> & Hcs).
    exists (flat_map data_send cs). split; [apply emits_String, Hcs |].
    intros g [Hg | Ht]; [apply strobe_kept_by_data_sends, Hg |].
    destruct cs as [| c cs]; cbn [app transmits] in Ht.
    + rewrite Z.eqb_refl in Ht. discriminate Ht.
    + cbn [flat_map]. rewrite drive_app.
      apply strobe_kept_by_data_sends, strobe_after_send.
  - exists (command_send (cursor_address row col)).
    split; [apply emits_Put_Cursor |].
    intros g _. apply strobe_after_send.
  - exists (command_send 0x01 ++ [EvDelay_ms 2]). split; [apply emits_Clear |].
    intros g _. rewrite drive_app. apply strobe_after_send.
Qed.

(** C10.  Every operation of the interface, called on a well-formed
    argument, returns with the strobe line low if it found the line low;
    and every operation that reaches [LCD_Transmit] -- all but
    [LCD_String] on the empty string -- returns with the strobe line low
    whatever it found. *)
Theorem strobe_low_on_return (op : operation) (fuel : nat) (s : hw) :
  well_formed op = true ->
  (20 < fuel)%nat -> 20 <= ARR s ->
  lvEN (pins s) = GPIO_PIN_RESET \/ transmits op = true ->
  exists s',
    run (call op) fuel s = Some (tt, s')
    /\ lvEN (pins s') = GPIO_PIN_RESET.
Proof.
  intros W Hf Ha H.
  destruct (operation_events op W) as (evs & Hev & Hen).
  destruct (emits_run _ _ fuel s Hev Hf Ha) as (s' & E & _ & P & _).
  exists s'. split; [exact E |]. rewrite P. apply Hen, H.
Qed.

Lemma strobe_low_on_return_witness :
  exists s',
    run (call (OpString (string_literal "Hi"))) 21 strobe_high = Some (tt, s')
    /\ lvEN (pins s') = GPIO_PIN_RESET.
Proof.
  apply (strobe_low_on_return (OpString (string_literal "Hi")) 21 strobe_high);
    [reflexivity | simpl; lia | simpl; lia | right; reflexivity].
Defined.

(** * Beyond the bus sequences: the busy wait *)

Lemma loop_never_leaves (target : Z) (fuel : nat) (n : nat) :
  forall s : hw,
    0 <= CNT s <= ARR s -> ARR s < target ->
    loop n (c <- HAL_TIM_GET_COUNTER ;; ret (c <? target)) tick fuel s = None.
Proof.
  induction n as [| n IH]; intros s Hc Ht; [reflexivity |].
  destruct s as [g c a t]. simpl in *.
  unfold bind, HAL_TIM_GET_COUNTER, ret. simpl.
  replace (c <? target) with true by (symmetry; apply Z.ltb_lt; lia).
  unfold tick at 1. simpl. apply IH; simpl; [| exact Ht].
  destruct (Z.eqb_spec c a); lia.
Qed.

(** X1.  [Delay us], for a target the counter can reach ([us] at most
    [ARR]), returns once the fuel allows [us + 1] tests of the counter,
    after exactly [us] ticks.  It touches no line, and neither the ticks
    nor the state it leaves depend on what the counter held before: the
    counter is at [us] on return. *)
Theorem Delay_waits_target_ticks (us : Z) (fuel : nat) (s : hw) :
  0 <= us < 65536 -> us <= ARR s -> (Z.to_nat us < fuel)%nat ->
  exists s',
    run (Delay us) fuel s = Some (tt, s')
    /\ trace s' = trace s ++ repeat EvTick (Z.to_nat us)
    /\ emitted (Delay us) fuel s = repeat EvTick (Z.to_nat us)
    /\ pins s' = pins s
    /\ CNT s' = us
    /\ ARR s' = ARR s.
Proof.
  intros Hus Ha Hf. unfold emitted. rewrite (Delay_ticks us fuel s Hus Ha Hf).
  eexists. split; [reflexivity |]. simpl.
  rewrite skipn_app, skipn_all, Nat.sub_diag. auto.
Qed.

Lemma Delay_waits_target_ticks_witness :
  exists s',
    run (Delay 3) 4 strobe_high = Some (tt, s')
    /\ trace s' = trace strobe_high ++ repeat EvTick (Z.to_nat 3)
    /\ emitted (Delay 3) 4 strobe_high = repeat EvTick (Z.to_nat 3)
    /\ pins s' = pins strobe_high
    /\ CNT s' = 3
    /\ ARR s' = ARR strobe_high.
Proof.
  apply (Delay_waits_target_ticks 3 4 strobe_high); simpl; lia.
Defined.

(** X2.  [Delay us] for a target beyond the reach of the counter ([us]
    above [ARR]) does not return, however much fuel it is given: the
    counter starts again at 0 before it gets to [us], and the loop has no
    other way out. *)
Theorem Delay_beyond_period_never_returns (us : Z) (fuel : nat) (s : hw) :
  0 <= ARR s -> ARR s < us < 65536 ->
  run (Delay us) fuel s = None.
Proof.
  intros Ha Hus. unfold Delay, to_uint16. rewrite Z.mod_small by lia.
  unfold run, bind, HAL_TIM_SET_COUNTER, while.
  apply loop_never_leaves; simpl; lia.
Qed.

Lemma Delay_beyond_period_never_returns_witness :
  run (Delay 20) 1000 (mkHw (pins power_on) 0 19 []) = None.
Proof.
  apply (Delay_beyond_period_never_returns 20 1000
           (mkHw (pins power_on) 0 19 [])); simpl; lia.
Defined.

(** * Beyond the bus sequences: strings *)



(** X4.  Writing a text in two calls is writing it in one: for
    characters [front], none of them zero, [LCD_String] on [front]
    followed by the buffer [back] runs as [LCD_String] on [front] and its
    terminating zero, followed by [LCD_String] on [back] -- from every
    state, with every fuel, and also when one of them does not return. *)
Theorem LCD_String_app (front back : list Z) (fuel : nat) (s : hw) :
  Forall (fun c => c <> 0) front ->
  run (LCD_String (front ++ back)) fuel s
  = run (LCD_String (front ++ [0]) ;; LCD_String back) fuel s.
Proof.
  intros H. revert s. induction H as [| c front Hc _ IH]; intros s.
  - reflexivity.
  - cbn [app LCD_String].
    destruct (Z.eqb_spec c 0) as [E | _]; [contradiction |].
    unfold run, bind in *.
    destruct (LCD_Data c fuel s) as [[[] s1] |]; [apply IH | reflexivity].
Qed.

Lemma LCD_String_app_witness :
  run (LCD_String ([0x48; 0x69] ++ [0x21; 0])) 21 power_on
  = run (LCD_String ([0x48; 0x69] ++ [0]) ;; LCD_String [0x21; 0]) 21 power_on.
Proof.
  apply (LCD_String_app [0x48; 0x69] [0x21; 0] 21 power_on).
  repeat constructor; lia.
Defined.

Lemma ticks_app (e1 e2 : list event) :
  ticks (e1 ++ e2) = (ticks e1 + ticks e2)%nat.
Proof.
  induction e1 as [| e e1 IH]; [reflexivity |].
  destruct e; cbn [app ticks]; rewrite IH; reflexivity.
Qed.

Lemma strobes_app (e1 e2 : list event) :
  strobes (e1 ++ e2) = (strobes e1 + strobes e2)%nat.
Proof.
  induction e1 as [| e e1 IH]; [reflexivity |].
  destruct e as [[] [] | |]; cbn [app strobes]; rewrite IH; reflexivity.
Qed.

Lemma cost_of_send (m : GPIO_PinState) (v : Z) :
  ticks (send m v) = 80%nat /\ strobes (send m v) = 2%nat.
Proof. split; reflexivity. Qed.

(** X5.  What a text costs: for [n] characters, none of them zero,
    [LCD_String] raises the strobe [2 * n] times and spends [80 * n] ticks
    of the timer in busy waits, and an empty text costs nothing. *)
Theorem LCD_String_cost (cs rest : list Z) (fuel : nat) (s : hw) :
  Forall (fun c => c <> 0) cs ->
  (20 < fuel)%nat -> 20 <= ARR s ->
  strobes (emitted (LCD_String (cs ++ 0 :: rest)) fuel s) = (2 * length cs)%nat
  /\ ticks (emitted (LCD_String (cs ++ 0 :: rest)) fuel s)
     = (80 * length cs)%nat.
Proof.
  intros Hcs Hf Ha.
  rewrite (emits_emitted _ _ fuel s (emits_String cs rest Hcs) Hf Ha).
  clear. induction cs as [| c cs [IHs IHt]]; [split; reflexivity |].
  cbn [flat_map length]. rewrite strobes_app, ticks_app, IHs, IHt.
  unfold data_send. destruct (cost_of_send data_mode c) as [-> ->].
  split; lia.
Qed.

Lemma LCD_String_cost_witness :
  strobes (emitted (LCD_String ([0x48; 0x69] ++ 0 :: [])) 21 power_on)
  = (2 * length [0x48; 0x69])%nat
  /\ ticks (emitted (LCD_String ([0x48; 0x69] ++ 0 :: [])) 21 power_on)
     = (80 * length [0x48; 0x69])%nat.
Proof.
  apply (LCD_String_cost [0x48; 0x69] [] 21 power_on);
    [repeat constructor; lia | simpl; lia | simpl; lia].
Defined.

(** * Beyond the bus sequences: operations one after the other *)

Lemma text_of_split (cs rest : list Z) :
  Forall (fun c => c <> 0) cs -> text_of (cs ++ 0 :: rest) = cs.
Proof.
  induction 1 as [| c cs Hc _ IH]; [reflexivity |].
  cbn [app text_of]. destruct (Z.eqb_spec c 0); [contradiction |].
  rewrite IH. reflexivity.
Qed.

Lemma play_app (a b : list step) : play (a ++ b) = play a ++ play b.
Proof. unfold play. apply flat_map_app. Qed.

Lemma play_text (cs : list Z) :
  play (map (fun c => Dat (to_char c)) cs) = flat_map data_send cs.
Proof.
  unfold play. induction cs as [| c cs IH]; [reflexivity |].
  cbn [map flat_map render]. rewrite IH. unfold data_send.
  rewrite send_to_char. reflexivity.
Qed.

Lemma emits_call (op : operation) :
  well_formed op = true -> emits (call op) (play (script_of op)).
Proof.
  destruct op as [| cmd | d | str | row col |];
    cbn [call well_formed script_of]; intros W.
  - apply emits_Init.
  - unfold play. cbn [flat_map render]. rewrite app_nil_r.
    unfold command_send. rewrite send_to_char. apply emits_Command.
  - unfold play. cbn [flat_map render]. rewrite app_nil_r.
    unfold data_send. rewrite send_to_char. apply emits_Data.
  - destruct (terminated_split str W) as (cs & rest & -> & Hcs).
    rewrite (text_of_split cs rest Hcs), play_text.
    apply emits_String, Hcs.
  - unfold play. cbn [flat_map render]. rewrite app_nil_r.
    unfold command_send. rewrite send_to_char. apply emits_Put_Cursor.
  - exact emits_Clear.
Qed.

Lemma emits_calls (ops : list operation) :
  forallb well_formed ops = true ->
  emits (calls ops) (play (flat_map script_of ops)).
Proof.
  induction ops as [| op ops IH]; cbn [forallb calls flat_map]; intros W.
  - apply emits_ret.
  - apply andb_prop in W as [W1 W2]. rewrite play_app.
    apply emits_bind; [apply emits_call, W1 | apply IH, W2].
Qed.

Lemma bytes_only_script_of (op : operation) : Forall bytes_only (script_of op).
Proof.
  destruct op as [| cmd | d | str | row col |]; cbn [script_of].
  - unfold init_script. repeat constructor; unfold is_byte; lia.
  - constructor; [apply to_char_is_byte | constructor].
  - constructor; [apply to_char_is_byte | constructor].
  - apply Forall_map, Forall_forall. intros c _. apply to_char_is_byte.
  - constructor; [apply to_char_is_byte | constructor].
  - repeat constructor; unfold is_byte; lia.
Qed.

Lemma bytes_only_scripts (ops : list operation) :
  Forall bytes_only (flat_map script_of ops).
Proof.
  induction ops as [| op ops IH]; [constructor |].
  cbn [flat_map]. apply Forall_app.
  split; [apply bytes_only_script_of | exact IH].
Qed.

(** X6.  Operations compose, and the display reads back what was sent.
    Any sequence of calls of the interface, each on a well-formed
    argument, returns; the trace grows by the events of the calls one
    after the other, none depending on what was called before; and the
    display, whatever its lines were at before, reads exactly the bytes
    and pauses of the calls, in their order. *)
Theorem calls_read_back (ops : list operation) (fuel : nat) (s : hw) :
  forallb well_formed ops = true ->
  (20 < fuel)%nat -> 20 <= ARR s ->
  exists s',
    run (calls ops) fuel s = Some (tt, s')
    /\ trace s' = trace s ++ flat_map (fun op => play (script_of op)) ops
    /\ decode (pins s) (emitted (calls ops) fuel s)
       = Some (flat_map script_of ops).
Proof.
  intros W Hf Ha. pose proof (emits_calls ops W) as H.
  destruct (emits_run _ _ fuel s H Hf Ha) as (s' & E & T & _).
  rewrite (emits_emitted _ _ fuel s H Hf Ha).
  exists s'. split; [exact E | split].
  - rewrite T. f_equal. clear. induction ops as [| op ops IH]; [reflexivity |].
    cbn [flat_map]. rewrite play_app, IH. reflexivity.
  - apply decode_play, bytes_only_scripts.
Qed.

Lemma calls_read_back_witness :
  exists s',
    run (calls [OpInit; OpPutCursor 1 3; OpString (string_literal "Hi");
                OpClear]) 21 strobe_high
    = Some (tt, s')
    /\ trace s'
       = trace strobe_high
         ++ flat_map (fun op => play (script_of op))
                     [OpInit; OpPutCursor 1 3; OpString (string_literal "Hi");
                      OpClear]
    /\ decode (pins strobe_high)
              (emitted (calls [OpInit; OpPutCursor 1 3;
                               OpString (string_literal "Hi"); OpClear])
                       21 strobe_high)
       = Some (flat_map script_of
                 [OpInit; OpPutCursor 1 3; OpString (string_literal "Hi");
                  OpClear]).
Proof.
  apply (calls_read_back
           [OpInit; OpPutCursor 1 3; OpString (string_literal "Hi"); OpClear]
           21 strobe_high); [reflexivity | simpl; lia | simpl; lia].
Defined.

Lemma well_timed_ticks (en : GPIO_PinState) (k : nat) :
  forall (since : nat) (evs : list event),
    well_timed en since (repeat EvTick k ++ evs)
    = well_timed en (k + since) evs.
Proof.
  induction k as [| k IH]; intros since evs; [reflexivity |].
  cbn [repeat app well_timed]. rewrite IH. f_equal. lia.
Qed.

Lemma well_timed_transmission
  (n : Z) (m : GPIO_PinState) (since : nat) (evs : list event) :
  (pulse_width <= since)%nat ->
  well_timed GPIO_PIN_RESET since (transmission n m ++ evs)
  = well_timed GPIO_PIN_RESET pulse_width evs.
Proof.
  intros H. unfold transmission, hold. rewrite <- !app_assoc.
  cbn [app well_timed]. apply Nat.leb_le in H. rewrite H.
  cbn [andb]. rewrite well_timed_ticks. cbn [app well_timed].
  rewrite Nat.add_0_r, Nat.leb_refl. cbn [andb].
  rewrite well_timed_ticks, Nat.add_0_r. reflexivity.
Qed.

Lemma well_timed_play (script : list step) :
  forall since : nat,
    (pulse_width <= since)%nat ->
    well_timed GPIO_PIN_RESET since (play script) = true.
Proof.
  unfold play. induction script as [| st script IH]; intros since H;
    [reflexivity |].
  cbn [flat_map]. destruct st as [v | v | ms]; cbn [render].
  - unfold command_send, send. rewrite <- app_assoc.
    rewrite well_timed_transmission by exact H.
    rewrite well_timed_transmission by apply Nat.le_refl.
    apply IH, Nat.le_refl.
  - unfold data_send, send. rewrite <- app_assoc.
    rewrite well_timed_transmission by exact H.
    rewrite well_timed_transmission by apply Nat.le_refl.
    apply IH, Nat.le_refl.
  - cbn [app well_timed]. apply IH, H.
Qed.

(** X7.  The timing of the bus is kept over any sequence of calls.  From
    a strobe that has been low for a pulse width, every call on a
    well-formed argument returns and, all along: the mode-select and
    data lines change while the strobe is low only; every pulse of the
    strobe lasts 20 ticks at least; and the strobe is low for 20 ticks at
    least before it is raised again. *)
Theorem calls_well_timed
  (ops : list operation) (since fuel : nat) (s : hw) :
  forallb well_formed ops = true ->
  (20 <= since)%nat -> (20 < fuel)%nat -> 20 <= ARR s ->
  exists s',
    run (calls ops) fuel s = Some (tt, s')
    /\ well_timed GPIO_PIN_RESET since (emitted (calls ops) fuel s) = true.
Proof.
  intros W Hs Hf Ha. pose proof (emits_calls ops W) as H.
  destruct (emits_run _ _ fuel s H Hf Ha) as (s' & E & _).
  rewrite (emits_emitted _ _ fuel s H Hf Ha).
  exists s'. split; [exact E | apply well_timed_play, Hs].
Qed.

Lemma calls_well_timed_witness :
  exists s',
    run (calls [OpInit; OpClear; OpString (string_literal "Hi")]) 21 power_on
    = Some (tt, s')
    /\ well_timed GPIO_PIN_RESET 20
         (emitted (calls [OpInit; OpClear; OpString (string_literal "Hi")])
                  21 power_on)
       = true.
Proof.
  apply (calls_well_timed [OpInit; OpClear; OpString (string_literal "Hi")]
           20 21 power_on); [reflexivity | lia | simpl; lia | simpl; lia].
Defined.

(** The check of the timing does reject: a data line written under a
    high strobe, a pulse of one tick, a strobe raised too soon. *)
Example well_timed_rejects :
  well_timed GPIO_PIN_RESET 20
    [EvWrite EN GPIO_PIN_SET; EvWrite DB4 GPIO_PIN_SET] = false
  /\ well_timed GPIO_PIN_RESET 20
       [EvWrite EN GPIO_PIN_SET; EvTick; EvWrite EN GPIO_PIN_RESET] = false
  /\ well_timed GPIO_PIN_RESET 19 (transmission 0 GPIO_PIN_RESET) = false.
Proof. repeat split; reflexivity. Qed.

Lemma pins_after_send (g : GPIO) (m : GPIO_PinState) (v : Z) :
  drive (send m v) g
  = mkGPIO m GPIO_PIN_RESET (bit v 0) (bit v 1) (bit v 2) (bit v 3).
Proof.
  rewrite <- (bit_land_15 v 0), <- (bit_land_15 v 1),
          <- (bit_land_15 v 2), <- (bit_land_15 v 3) by lia.
  destruct g. reflexivity.
Qed.

(** X8.  A send leaves nothing of the former levels on the bus.  After
    [LCD_Command v] the six lines are: mode-select low, strobe low, and
    DB4 to DB7 at bits 0 to 3 of [v], the nibble sent last; after
    [LCD_Data v] the same with mode-select high. *)
Theorem lines_after_send (v : Z) (fuel : nat) (s : hw) :
  (20 < fuel)%nat -> 20 <= ARR s ->
  (exists s',
     run (LCD_Command v) fuel s = Some (tt, s')
     /\ pins s' = mkGPIO GPIO_PIN_RESET GPIO_PIN_RESET
                         (bit v 0) (bit v 1) (bit v 2) (bit v 3))
  /\ (exists s',
        run (LCD_Data v) fuel s = Some (tt, s')
        /\ pins s' = mkGPIO GPIO_PIN_SET GPIO_PIN_RESET
                            (bit v 0) (bit v 1) (bit v 2) (bit v 3)).
Proof.
  intros Hf Ha. split.
  - destruct (emits_run _ _ fuel s (emits_Command v) Hf Ha)
      as (s' & E & _ & P & _).
    exists s'. split; [exact E |]. rewrite P. apply pins_after_send.
  - destruct (emits_run _ _ fuel s (emits_Data v) Hf Ha)
      as (s' & E & _ & P & _).
    exists s'. split; [exact E |]. rewrite P. apply pins_after_send.
Qed.

Lemma lines_after_send_witness :
  (exists s',
     run (LCD_Command 0xC5) 21 strobe_high = Some (tt, s')
     /\ pins s' = mkGPIO GPIO_PIN_RESET GPIO_PIN_RESET
                         (bit 0xC5 0) (bit 0xC5 1) (bit 0xC5 2) (bit 0xC5 3))
  /\ (exists s',
        run (LCD_Data 0xC5) 21 strobe_high = Some (tt, s')
        /\ pins s' = mkGPIO GPIO_PIN_SET GPIO_PIN_RESET
                            (bit 0xC5 0) (bit 0xC5 1)
                            (bit 0xC5 2) (bit 0xC5 3)).
Proof. apply (lines_after_send 0xC5 21 strobe_high); simpl; lia. Defined.

(** * Beyond the bus sequences: cursor addresses *)

Lemma testbit_small (c n m : Z) :
  0 <= c < 2 ^ n -> n <= m -> Z.testbit c m = false.
Proof.
  intros Hc Hm. assert (0 <= n).
  { destruct (Z_lt_dec n 0) as [Hn |]; [| lia].
    rewrite Z.pow_neg_r in Hc by exact Hn. lia. }
  rewrite <- (Z.mod_small c (2 ^ n)) by exact Hc.
  apply Z.mod_pow2_bits_high. lia.
Qed.

(** A base that is a multiple of [2 ^ n] and an offset below [2 ^ n]
    share no bit: their [|] is their sum. *)
Lemma lor_base_offset (a c n : Z) :
  0 <= n -> 0 <= c < 2 ^ n -> Z.lor (a * 2 ^ n) c = a * 2 ^ n + c.
Proof.
  intros Hn Hc.
  assert (L : Z.land (a * 2 ^ n) c = 0).
  { apply Z.bits_inj'. intros m Hm. rewrite Z.land_spec, Z.bits_0.
    destruct (Z_lt_dec m n) as [Hlt | Hge].
    - rewrite Z.mul_pow2_bits_low by lia. reflexivity.
    - rewrite (testbit_small c n m) by lia. apply andb_false_r. }
  rewrite Z.add_nocarry_lxor by exact L. symmetry. apply Z.lxor_lor, L.
Qed.

(** X9.  For a column from 0 to 63, [LCD_Put_Cursor] sends base plus
    column: the display reads the one instruction byte [0x80 + col] for
    row 0 and [0xC0 + col] for row 1, and so a set-address instruction
    for the address [col], or [0x40 + col], of its memory. *)
Theorem LCD_Put_Cursor_base_plus_column (col : Z) (fuel : nat) (s : hw) :
  0 <= col < 64 ->
  (20 < fuel)%nat -> 20 <= ARR s ->
  decode (pins s) (emitted (LCD_Put_Cursor 0 col) fuel s)
  = Some [Cmd (0x80 + col)]
  /\ decode (pins s) (emitted (LCD_Put_Cursor 1 col) fuel s)
     = Some [Cmd (0xC0 + col)].
Proof.
  intros Hc Hf Ha.
  rewrite !(emits_emitted _ _ fuel s (emits_Put_Cursor _ col) Hf Ha).
  rewrite !decode_command_send.
  change (cursor_address 0 col) with (Z.lor 0x80 col).
  change (cursor_address 1 col) with (Z.lor 0xC0 col).
  change 0x80 with (2 * 2 ^ 6). change 0xC0 with (3 * 2 ^ 6).
  rewrite !lor_base_offset by (change (2 ^ 6) with 64; lia).
  rewrite !to_char_small by (change (2 ^ 6) with 64; lia).
  split; reflexivity.
Qed.

Lemma LCD_Put_Cursor_base_plus_column_witness :
  decode (pins power_on) (emitted (LCD_Put_Cursor 0 15) 21 power_on)
  = Some [Cmd (0x80 + 15)]
  /\ decode (pins power_on) (emitted (LCD_Put_Cursor 1 15) 21 power_on)
     = Some [Cmd (0xC0 + 15)].
Proof.
  apply (LCD_Put_Cursor_base_plus_column 15 21 power_on); simpl; lia.
Defined.

(** X10.  No bound on the column: column [64 + col] of row 0 is column
    [col] of row 1.  For a column from 0 to 63, [LCD_Put_Cursor 0 (64 +
    col)] and [LCD_Put_Cursor 1 col] run alike from every state, with
    every fuel. *)
Theorem LCD_Put_Cursor_row_overflow (col : Z) (fuel : nat) (s : hw) :
  0 <= col < 64 ->
  run (LCD_Put_Cursor 0 (64 + col)) fuel s = run (LCD_Put_Cursor 1 col) fuel s.
Proof.
  intros Hc. unfold LCD_Put_Cursor.
  change (0 =? 0) with true. change (1 =? 0) with false.
  change (1 =? 1) with true. cbv iota zeta.
  replace (Z.lor (64 + col) 0x80) with (Z.lor col 0xC0); [reflexivity |].
  rewrite (Z.lor_comm col), (Z.lor_comm (64 + col)).
  change 0xC0 with (3 * 2 ^ 6). change 0x80 with (1 * 2 ^ 7).
  rewrite (lor_base_offset 3 col 6), (lor_base_offset 1 (64 + col) 7);
    change (2 ^ 6) with 64; change (2 ^ 7) with 128; lia.
Qed.

Lemma LCD_Put_Cursor_row_overflow_witness :
  run (LCD_Put_Cursor 0 (64 + 5)) 21 power_on
  = run (LCD_Put_Cursor 1 5) 21 power_on.
Proof. apply (LCD_Put_Cursor_row_overflow 5 21 power_on). lia. Defined.

Lemma byte_with_bit_7 (b : Z) :
  is_byte b -> Z.testbit b 7 = true -> 0x80 <= b <= 0xFF.
Proof.
  unfold is_byte. intros Hb H7.
  apply Z.testbit_true in H7; [| lia]. change (2 ^ 7) with 128 in H7.
  Z.div_mod_to_equations. lia.
Qed.

Lemma byte_with_bits_7_6 (b : Z) :
  is_byte b -> Z.testbit b 7 = true -> Z.testbit b 6 = true ->
  0xC0 <= b <= 0xFF.
Proof.
  unfold is_byte. intros Hb H7 H6.
  apply Z.testbit_true in H7; [| lia]. change (2 ^ 7) with 128 in H7.
  apply Z.testbit_true in H6; [| lia]. change (2 ^ 6) with 64 in H6.
  Z.div_mod_to_equations. lia.
Qed.

Lemma to_char_testbit (v k : Z) :
  0 <= k < 8 -> Z.testbit (to_char v) k = Z.testbit v k.
Proof.
  intros Hk. unfold to_char. change 256 with (2 ^ 8).
  apply Z.mod_pow2_bits_low. lia.
Qed.

(** X11.  On rows 0 and 1, [LCD_Put_Cursor] sends a set-address
    instruction and no other, whatever the column, in range or not: the
    one byte the display reads lies from [0x80] to [0xFF] for row 0, and
    from [0xC0] to [0xFF] for row 1. *)
Theorem LCD_Put_Cursor_always_an_address (col : Z) (fuel : nat) (s : hw) :
  (20 < fuel)%nat -> 20 <= ARR s ->
  exists b0 b1,
    decode (pins s) (emitted (LCD_Put_Cursor 0 col) fuel s) = Some [Cmd b0]
    /\ 0x80 <= b0 <= 0xFF
    /\ decode (pins s) (emitted (LCD_Put_Cursor 1 col) fuel s) = Some [Cmd b1]
    /\ 0xC0 <= b1 <= 0xFF.
Proof.
  intros Hf Ha.
  rewrite !(emits_emitted _ _ fuel s (emits_Put_Cursor _ col) Hf Ha).
  rewrite !decode_command_send.
  change (cursor_address 0 col) with (Z.lor 0x80 col).
  change (cursor_address 1 col) with (Z.lor 0xC0 col).
  exists (to_char (Z.lor 0x80 col)), (to_char (Z.lor 0xC0 col)).
  split; [reflexivity | split; [| split; [reflexivity |]]].
  - apply byte_with_bit_7; [apply to_char_is_byte |].
    rewrite to_char_testbit, Z.lor_spec by lia. reflexivity.
  - apply byte_with_bits_7_6; [apply to_char_is_byte | |];
      rewrite to_char_testbit, Z.lor_spec by lia; reflexivity.
Qed.

Lemma LCD_Put_Cursor_always_an_address_witness :
  exists b0 b1,
    decode (pins power_on) (emitted (LCD_Put_Cursor 0 (-1)) 21 power_on)
    = Some [Cmd b0]
    /\ 0x80 <= b0 <= 0xFF
    /\ decode (pins power_on) (emitted (LCD_Put_Cursor 1 (-1)) 21 power_on)
       = Some [Cmd b1]
    /\ 0xC0 <= b1 <= 0xFF.
Proof.
  apply (LCD_Put_Cursor_always_an_address (-1) 21 power_on); simpl; lia.
Defined.
